(** * UCBlock Conan recipe (conanfile.py): model and verified properties

  The recipe [UcblockConan] is a Conan 1.x package definition.  Its methods
  are short sequences of calls into the Conan API
  ([tools.replace_in_file], [self.copy], the [CMake] build helper), so the
  development has three layers:

  - [PyStr] and [Fnmatch]: the Python string operations the Conan calls are
    made of ([str.find], [str.replace], [str.lower], [fnmatch.fnmatchcase]);
  - [Conan]: the state the recipe acts on (folders, options, published
    [cpp_info], the commands handed to the native build tool), a state and
    exception monad, and the Conan calls used by the recipe;
  - [UcblockConan]: the recipe itself, attribute by attribute and method by
    method. *)

From Stdlib Require Import ZArith List Ascii String Bool Lia.
From stdpp Require Import base option list gmap strings.

Set Default Proof Using "Type".

(** ** Python strings *)

Module PyStr.

(** A Python [str] is a sequence of characters. *)
Abbreviation str := (list ascii).

(** A literal. *)
Definition lit (s : string) : str := list_ascii_of_string s.

(** The newline character, written [\n] in the recipe. *)
Definition nl : str := ["010"%char].

(** [s.startswith(p)]. *)
Fixpoint startswith (s p : str) : bool :=
  match p, s with
  | [], _ => true
  | _ :: _, [] => false
  | a :: p', b :: s' => Ascii.eqb a b && startswith s' p'
  end.

(** [s.find(sub)] scanning from index [i]: the lowest index at which [sub]
    starts, or [-1]. *)
Fixpoint find_from (i : Z) (s sub : str) : Z :=
  if startswith s sub then i
  else match s with
       | [] => (-1)%Z
       | _ :: s' => find_from (i + 1)%Z s' sub
       end.

Definition find (s sub : str) : Z := find_from 0%Z s sub.

(** [s.replace(old, new)] for a non-empty [old]: the scan goes left to
    right; at a match it emits [new] and steps over the matched characters
    ([skip] counts those still to step over), elsewhere it copies the
    character. *)
Fixpoint replace_scan (old new : str) (skip : nat) (s : str) : str :=
  match s with
  | [] => []
  | c :: s' =>
      match skip with
      | S k => replace_scan old new k s'
      | O =>
          if startswith s old
          then new ++ replace_scan old new (length old - 1) s'
          else c :: replace_scan old new 0 s'
      end
  end.

(** [s.replace(old, new)].  With an empty [old] Python puts [new] before
    every character and at the end. *)
Definition replace (s old new : str) : str :=
  match old with
  | [] => new ++ flat_map (fun c => c :: new) s
  | _ :: _ => replace_scan old new 0 s
  end.

(** [s.lower()] on the ASCII letters. *)
Definition lower_char (c : ascii) : ascii :=
  let n := nat_of_ascii c in
  if (65 <=? n)%nat && (n <=? 90)%nat then ascii_of_nat (n + 32) else c.

Definition lower (s : str) : str := map lower_char s.

(** *** Vocabulary for stating properties *)

(** The number of positions of [s] at which [sub] starts. *)
Fixpoint occurrences (s sub : str) : nat :=
  (if startswith s sub then 1 else 0) +
  match s with
  | [] => 0
  | _ :: s' => occurrences s' sub
  end.

(** [sub] is a substring of [s]. *)
Definition contains (s sub : str) : Prop :=
  exists pre post, s = pre ++ sub ++ post.

(** The pieces of [s] between successive matches of a non-empty [sep],
    scanning as [replace] does ([s.split(sep)] in Python). *)
Fixpoint split_scan (sep : str) (skip : nat) (s : str) : list str :=
  match s with
  | [] => [[]]
  | c :: s' =>
      match skip with
      | S k => split_scan sep k s'
      | O =>
          if startswith s sep
          then [] :: split_scan sep (length sep - 1) s'
          else match split_scan sep 0 s' with
               | p :: ps => (c :: p) :: ps
               | [] => [[c]]
               end
      end
  end.

Definition split (s sep : str) : list str := split_scan sep 0 s.

(** [sep.join(pieces)]. *)
Fixpoint join (sep : str) (pieces : list str) : str :=
  match pieces with
  | [] => []
  | [p] => p
  | p :: ps => p ++ sep ++ join sep ps
  end.

(** The first character of [sep] does not occur again in [sep]: two matches
    of such a [sep] never overlap. *)
Definition head_unique (sep : str) : bool :=
  match sep with
  | [] => false
  | c :: t => forallb (fun x => negb (Ascii.eqb x c)) t
  end.

(** No character of [s] is the first character of [sep]. *)
Definition avoids_head (s sep : str) : bool :=
  match sep with
  | [] => false
  | c :: _ => forallb (fun x => negb (Ascii.eqb x c)) s
  end.

End PyStr.

(** ** Shell-style patterns *)

Module Fnmatch.
Import PyStr.

(** [fnmatch.fnmatchcase(name, pat)] for patterns made of literal
    characters, [*] (any run of characters, [/] included) and [?] (any one
    character).  No pattern of the recipe has a bracket expression. *)
Fixpoint fnmatchcase (name pat : str) : bool :=
  match pat with
  | [] => match name with [] => true | _ :: _ => false end
  | c :: pat' =>
      if Ascii.eqb c "*" then
        (fix star (n : str) : bool :=
           fnmatchcase n pat' ||
           match n with
           | [] => false
           | _ :: n' => star n'
           end) name
      else
        match name with
        | [] => false
        | d :: name' =>
            (Ascii.eqb c "?" || Ascii.eqb c d) && fnmatchcase name' pat'
        end
  end.

(** A pattern character that stands for itself. *)
Definition literal (c : ascii) : bool :=
  negb (Ascii.eqb c "*") && negb (Ascii.eqb c "?").

End Fnmatch.

(** ** The Conan 1.x API used by the recipe *)

Module Conan.
Import PyStr Fnmatch.

(** A folder: relative path of each file to its text. *)
Abbreviation Files := (gmap string str).

(** The three folders of a package build. *)
Record Folders := mkFolders {
  source_folder : Files;
  build_folder : Files;
  package_folder : Files
}.

(** [self.options]: the recipe declares [shared] and [fPIC], both with the
    value list [[True, False]]. *)
Record Options := mkOptions { shared : bool; fPIC : bool }.

(** [self.settings]: the recipe declares ["os", "arch", "compiler",
    "build_type"]. *)
Record Settings := mkSettings {
  os : string;
  arch : string;
  compiler : string;
  build_type : string
}.

(** A value of the [definitions] dict of the CMake helper. *)
Inductive cmake_value :=
| VBool (b : bool)
| VStr (s : string).

Abbreviation Definitions := (gmap string cmake_value).

(** The commands of the native build tool: configure with its [-D]
    definitions, build, and the install target. *)
Inductive Command :=
| Configure (defs : Definitions)
| Build
| Install.

(** [self.cpp_info]. *)
Record CppInfo := mkCppInfo {
  includedirs : list string;
  libdirs : list string;
  bindirs : list string;
  libs : list string
}.

(** What a recipe method sees and changes: the recipe object's [options],
    [settings] and [cpp_info], the folders, and the commands run so far by
    the native build tool (oldest first). *)
Record World := mkWorld {
  options : Options;
  settings : Settings;
  cpp_info : CppInfo;
  folders : Folders;
  invocations : list Command
}.

(** The exceptions the calls below raise: [ConanException] of
    [_manage_text_not_found], [ConanException] of a command with a non-zero
    exit status, and the [IOError] of opening a missing file. *)
Inductive exn :=
| PatternNotFound (function_name : string) (search : str) (file_path : string)
| CommandFailed (cmd : Command) (retcode : Z)
| FileNotFoundError (file_path : string).

Inductive result (A : Type) :=
| Ok (a : A)
| Raise (e : exn).
Arguments Ok {A} a.
Arguments Raise {A} e.

(** Recipe methods run in a state and exception monad; the state reached when
    an exception is raised is kept. *)
Definition M (A : Type) : Type := World -> result A * World.

#[export] Instance M_ret : MRet M := fun A a w => (Ok a, w).

#[export] Instance M_bind : MBind M := fun A B f m w =>
  match m w with
  | (Ok a, w') => f a w'
  | (Raise e, w') => (Raise e, w')
  end.

#[export] Instance M_throw : MThrow exn M := fun A e w => (Raise e, w).

Definition get_world : M World := fun w => (Ok w, w).

Definition modify (f : World -> World) : M unit := fun w => (Ok tt, f w).

Definition set_folders (fs : Folders) (w : World) : World :=
  mkWorld (options w) (settings w) (cpp_info w) fs (invocations w).

Definition set_options (o : Options) (w : World) : World :=
  mkWorld o (settings w) (cpp_info w) (folders w) (invocations w).

Definition set_cpp_info (c : CppInfo) (w : World) : World :=
  mkWorld (options w) (settings w) c (folders w) (invocations w).

Definition log_invocation (cmd : Command) (w : World) : World :=
  mkWorld (options w) (settings w) (cpp_info w) (folders w)
    (invocations w ++ [cmd]).

Definition set_source_folder (f : Files) (fs : Folders) : Folders :=
  mkFolders f (build_folder fs) (package_folder fs).

Definition set_package_folder (f : Files) (fs : Folders) : Folders :=
  mkFolders (source_folder fs) (build_folder fs) f.

(** *** tools.load, tools.save, tools.replace_in_file

    [source()] runs with the source folder as working directory, so relative
    paths name files of [source_folder].  Of the errors of opening and
    writing a file only the missing file is modelled; a file that cannot be
    read or written (permissions, a directory, a full disk) is not. *)

Definition load (file_path : string) : M str :=
  w ← get_world;
  match source_folder (folders w) !! file_path with
  | Some content => mret content
  | None => mthrow (FileNotFoundError file_path)
  end.

(** The world in which the file holds [content]. *)
Definition write_file (file_path : string) (content : str) (w : World)
    : World :=
  set_folders
    (set_source_folder (<[file_path := content]> (source_folder (folders w)))
       (folders w)) w.

Definition save (file_path : string) (content : str) : M unit :=
  modify (write_file file_path content).

(** [_manage_text_not_found]: raises when [strict], otherwise warns and
    returns [False]. *)
Definition _manage_text_not_found (search : str) (file_path : string)
    (strict : bool) (function_name : string) : M bool :=
  if strict then mthrow (PatternNotFound function_name search file_path)
  else mret false.

(** [tools.replace_in_file(file_path, search, replace, strict=True)]:
<<
    content = load(file_path)
    if -1 == content.find(search):
        _manage_text_not_found(search, file_path, strict, "replace_in_file")
    content = content.replace(search, replace)
    save(file_path, content)
>> *)
Definition replace_in_file (file_path : string) (search replace : str)
    (strict : bool) : M unit :=
  content ← load file_path;
  (if (-1 =? find content search)%Z
   then _manage_text_not_found search file_path strict "replace_in_file"
   else mret true) ;;
  save file_path (PyStr.replace content search replace).

(** *** The file copier behind [self.copy] and the export of sources *)

(** [os.path.join(dst, relative_name)]. *)
Definition path_join (dst name : string) : string :=
  match dst with
  | EmptyString => name
  | _ => dst +:+ "/" +:+ name
  end.

(** [_filter_files]: a file is taken when its relative name matches the
    pattern; with [ignore_case] both are lowered first.  (Not modelled: Conan
    also leaves out [.git] and [.svn] folders, and of several files whose
    names differ only by case it takes one.) *)
Definition filter_match (ignore_case : bool) (pattern name : string) : bool :=
  if ignore_case then fnmatchcase (lower (lit name)) (lower (lit pattern))
  else fnmatchcase (lit name) (lit pattern).

(** The files of [src] that match, under their names in the destination. *)
Definition files_to_copy (src : Files) (pattern dst : string)
    (ignore_case : bool) : Files :=
  kmap (path_join dst)
    (filter (fun kv => filter_match ignore_case pattern kv.1 = true) src).

(** [FileCopier(source_folders, root)(pattern, dst, ignore_case=True)]: every
    source folder in turn; a copied file replaces one of the same name. *)
Definition FileCopier (source_folders : list Files) (root : Files)
    (pattern dst : string) (ignore_case : bool) : Files :=
  foldl (fun acc src => files_to_copy src pattern dst ignore_case ∪ acc)
    root source_folders.

(** [self.copy(pattern, dst)] inside [package()]: the copier from the source
    and build folders into the package folder. *)
Definition copied (pattern dst : string) (fs : Folders) : Folders :=
  set_package_folder
    (FileCopier [source_folder fs; build_folder fs] (package_folder fs)
       pattern dst true) fs.

Definition copy (pattern dst : string) : M unit :=
  modify (fun w => set_folders (copied pattern dst (folders w)) w).

(** The export of [exports_sources]: one copier call per pattern, from the
    recipe's folder into an empty one (no pattern of the recipe is an
    exclusion, which would start with [!]). *)
Definition export_source (patterns : list string) (origin : Files) : Files :=
  foldl (fun acc pattern => FileCopier [origin] acc pattern "" true)
    ∅ patterns.

(** *** The CMake build helper

    The helper and the native tool behind it are outside the recipe.
    [helper_definitions] is the [definitions] dict a fresh [CMake(self)]
    derives from settings and options; [run_tool] is what a command does to
    the folders, with its exit status. *)
Class NativeBuild := {
  helper_definitions : Settings -> Options -> Definitions;
  run_tool : Command -> Folders -> Z * Folders
}.

Record CMake := mkCMake { definitions : Definitions }.

(** [cmake.definitions[key] = value]. *)
Definition set_definition (key : string) (value : cmake_value) (cmake : CMake)
    : CMake :=
  mkCMake (<[key := value]> (definitions cmake)).

Section Helper.
Context {tool : NativeBuild}.

(** [CMake(self)]. *)
Definition CMake_new : M CMake :=
  w ← get_world;
  mret (mkCMake (helper_definitions (settings w) (options w))).

(** [self.run(command)]: the command is handed to the tool; a non-zero exit
    status raises. *)
Definition run (cmd : Command) : M unit :=
  w ← get_world;
  let '(retcode, fs) := run_tool cmd (folders w) in
  modify (fun w => log_invocation cmd (set_folders fs w)) ;;
  if (retcode =? 0)%Z then mret tt else mthrow (CommandFailed cmd retcode).

(** [cmake.configure()], [cmake.build()], [cmake.install()] as a package
    build runs them (the [should_configure], [should_build] and
    [should_install] switches of the local development commands are on). *)
Definition configure (cmake : CMake) : M unit :=
  run (Configure (definitions cmake)).

Definition build (cmake : CMake) : M unit := run Build.

Definition install (cmake : CMake) : M unit := run Install.

End Helper.

End Conan.

(** ** The recipe *)

Module UcblockConan.
Import PyStr Conan.

Definition name : string := "ucblock".
Definition version : string := "0.6.2".
Definition description : string := "Unit Commitment Blocks for SMS++".
Definition topics : list string := ["conan"; "smspp"; "ucblock"].
Definition url : string := "https://gitlab.com/smspp/ucblock".
Definition homepage : string := "https://gitlab.com/smspp/ucblock".
Definition license : string := "GPL-3.0-only".
Definition generators : string := "cmake".

(** [default_options = {"shared": False, "fPIC": True}]. *)
Definition default_options : Options := mkOptions false true.

(** The one requirement (a parenthesised string in the recipe). *)
Definition requires : string := "smspp/0.5.2@smspp/testing".

Definition exports_sources : list string :=
  ["CMakeLists.txt"; "src/*"; "include/*"; "cmake/*"; "tools/*"].

(** The search text of [source()]. *)
Definition anchor : str := lit "LANGUAGES C CXX)".

(** The two lines [source()] adds after the anchor. *)
Definition include_line : str :=
  lit "include(${CMAKE_BINARY_DIR}/conanbuildinfo.cmake)".

Definition setup_line : str := lit "conan_basic_setup()".

(** The replacement text of [source()]. *)
Definition replacement : str :=
  (lit "LANGUAGES C CXX)" ++ nl) ++ (include_line ++ nl) ++ setup_line.

(** What the replacement adds to the anchor. *)
Definition inserted : str := nl ++ include_line ++ nl ++ setup_line.

Definition source : M unit :=
  replace_in_file "CMakeLists.txt" anchor replacement true.

Section Methods.
Context {tool : NativeBuild}.

Definition _configure_cmake : M CMake :=
  cmake ← CMake_new;
  let cmake := set_definition "BUILD_TESTING" (VBool false) cmake in
  configure cmake ;;
  mret cmake.

Definition build : M unit :=
  cmake ← _configure_cmake;
  Conan.build cmake.

Definition package : M unit :=
  copy "LICENSE" "licenses" ;;
  cmake ← _configure_cmake;
  install cmake.

End Methods.

Definition package_info : M unit :=
  modify (fun w =>
    set_cpp_info
      (mkCppInfo ["include"; "include/SMS++"] (libdirs (cpp_info w))
         (bindirs (cpp_info w)) (libs (cpp_info w))) w) ;;
  modify (fun w =>
    set_cpp_info
      (mkCppInfo (includedirs (cpp_info w)) (libdirs (cpp_info w))
         (bindirs (cpp_info w)) ["UCBlock"]) w).

(** The steps of [conan create]: the sources are exported from the recipe's
    folder into the source folder. *)
Definition exported (recipe_folder : Files) : Files :=
  export_source exports_sources recipe_folder.

End UcblockConan.

(** ** Sample inputs *)

Module Samples.
Import PyStr Conan UcblockConan.

(** A build description that declares the project's languages once. *)
Definition cmakelists : str :=
  lit "cmake_minimum_required(VERSION 3.19)" ++ nl ++
  lit "project(UCBlock VERSION 0.6.2 LANGUAGES C CXX)" ++ nl ++
  lit "add_subdirectory(src)" ++ nl.

(** The same after one run of [source()]. *)
Definition cmakelists_patched : str :=
  lit "cmake_minimum_required(VERSION 3.19)" ++ nl ++
  lit "project(UCBlock VERSION 0.6.2 LANGUAGES C CXX)" ++ nl ++
  lit "include(${CMAKE_BINARY_DIR}/conanbuildinfo.cmake)" ++ nl ++
  lit "conan_basic_setup()" ++ nl ++
  lit "add_subdirectory(src)" ++ nl.


(** A build description that does not name its languages. *)
Definition cmakelists_plain : str :=
  lit "project(UCBlock)" ++ nl ++ lit "add_subdirectory(src)" ++ nl.

(** A build description with two project declarations. *)
Definition cmakelists_two : str :=
  lit "project(UCBlock LANGUAGES C CXX)" ++ nl ++
  lit "project(UCBlockTools LANGUAGES C CXX)" ++ nl.

Definition cmakelists_two_patched : str :=
  lit "project(UCBlock LANGUAGES C CXX)" ++ nl ++
  lit "include(${CMAKE_BINARY_DIR}/conanbuildinfo.cmake)" ++ nl ++
  lit "conan_basic_setup()" ++ nl ++
  lit "project(UCBlockTools LANGUAGES C CXX)" ++ nl ++
  lit "include(${CMAKE_BINARY_DIR}/conanbuildinfo.cmake)" ++ nl ++
  lit "conan_basic_setup()" ++ nl.

Definition linux_release : Settings :=
  mkSettings "Linux" "x86_64" "gcc" "Release".

(** The [cpp_info] a recipe starts from. *)
Definition fresh_cpp_info : CppInfo :=
  mkCppInfo ["include"] ["lib"] ["bin"] [].

(** A world at the start of a build with the given source folder. *)
Definition world_with (src : Files) : World :=
  mkWorld default_options linux_release fresh_cpp_info
    (mkFolders src ∅ ∅) [].

Definition world_of (text : str) : World :=
  world_with {[ "CMakeLists.txt" := text ]}.

(** A recipe folder as in the repository: build description, a source, a
    header and the licence text. *)
Definition repository : Files :=
  {[ "CMakeLists.txt" := cmakelists;
     "src/UCBlock.cpp" := lit "// UCBlock";
     "include/UCBlock.h" := lit "// UCBlock";
     "LICENSE" := lit "GNU GENERAL PUBLIC LICENSE" ]}.

(** A native tool every command of which succeeds and leaves the folders as
    they are, behind a helper that derives two definitions from the
    options. *)
Definition quiet_tool : NativeBuild := {|
  helper_definitions := fun _ o =>
    {[ "BUILD_SHARED_LIBS" := VStr (if shared o then "ON" else "OFF");
       "CONAN_CMAKE_POSITION_INDEPENDENT_CODE" :=
         VStr (if fPIC o then "ON" else "OFF") ]};
  run_tool := fun _ fs => (0%Z, fs)
|}.

(** A native tool that leaves the folders as they are and exits with status
    0 except on the commands [fails] selects, where it exits with status 2. *)
Definition tool_failing_on (fails : Command -> bool) : NativeBuild := {|
  helper_definitions := helper_definitions (NativeBuild := quiet_tool);
  run_tool := fun cmd fs => (if fails cmd then 2%Z else 0%Z, fs)
|}.

Definition is_configure (cmd : Command) : bool :=
  match cmd with Configure _ => true | _ => false end.

Definition is_build (cmd : Command) : bool :=
  match cmd with Build => true | _ => false end.

Definition is_install (cmd : Command) : bool :=
  match cmd with Install => true | _ => false end.

(** A source folder that holds the build description and the licence. *)
Definition licensed_sources : Files :=
  {[ "CMakeLists.txt" := cmakelists_patched;
     "LICENSE" := lit "GNU GENERAL PUBLIC LICENSE" ]}.

End Samples.

(** ** Facts about the string operations *)

Module PyStrFacts.
Import PyStr.

Lemma startswith_nil (s : str) : startswith s [] = true.
Proof. destruct s; reflexivity. Qed.

Lemma startswith_app (p r : str) : startswith (p ++ r) p = true.
Proof.
  induction p as [|a p IH]; simpl.
  - apply startswith_nil.
  - rewrite Ascii.eqb_refl. exact IH.
Qed.

Lemma startswith_inv (s p : str) :
  startswith s p = true -> exists r, s = p ++ r.
Proof.
  revert s. induction p as [|a p IH]; intros s Hs.
  - exists s. reflexivity.
  - destruct s as [|b s]; simpl in Hs; [discriminate|].
    apply andb_true_iff in Hs as [Hab Hs].
    apply Ascii.eqb_eq in Hab. subst b.
    destruct (IH _ Hs) as [r ->]. exists r. reflexivity.
Qed.

(** Only the first [length p] characters matter. *)
Lemma startswith_app_long (x t p : str) :
  length p <= length x -> startswith (x ++ t) p = startswith x p.
Proof.
  revert x. induction p as [|a p IH]; intros x Hlen.
  - rewrite !startswith_nil. reflexivity.
  - destruct x as [|b x]; simpl in *; [lia|].
    rewrite IH by lia. reflexivity.
Qed.

Lemma startswith_app_mono (x t p : str) :
  startswith x p = true -> startswith (x ++ t) p = true.
Proof.
  intros Hx. destruct (startswith_inv _ _ Hx) as [r ->].
  rewrite <- app_assoc. apply startswith_app.
Qed.

Lemma startswith_head_neq (a c : ascii) (p s : str) :
  Ascii.eqb c a = false -> startswith (c :: s) (a :: p) = false.
Proof.
  intros Hne. simpl. rewrite Ascii.eqb_sym, Hne. reflexivity.
Qed.

(** *** occurrences, contains, find *)

Lemma occurrences_nil (sub : str) :
  sub <> [] -> occurrences [] sub = 0.
Proof. destruct sub; [congruence | reflexivity]. Qed.

Lemma occurrences_cons (c : ascii) (s sub : str) :
  occurrences (c :: s) sub =
  (if startswith (c :: s) sub then 1 else 0) + occurrences s sub.
Proof. reflexivity. Qed.

Lemma occurrences_app_r (x r sub : str) :
  occurrences r sub <= occurrences (x ++ r) sub.
Proof.
  induction x as [|c x IH]; [reflexivity|].
  rewrite <- app_comm_cons, occurrences_cons. lia.
Qed.

Lemma occurrences_match (sub r : str) :
  1 <= occurrences (sub ++ r) sub.
Proof.
  pose proof (startswith_app sub r) as Hm.
  destruct (sub ++ r) as [|c s]; cbn [occurrences]; rewrite Hm; lia.
Qed.

Lemma occurrences_contains (s sub : str) :
  1 <= occurrences s sub <-> contains s sub.
Proof.
  split.
  - induction s as [|c s IH]; cbn [occurrences].
    + destruct (startswith [] sub) eqn:Hm; [|lia].
      intros _. destruct (startswith_inv _ _ Hm) as [r Hr].
      exists [], r. exact Hr.
    + destruct (startswith (c :: s) sub) eqn:Hm.
      * intros _. destruct (startswith_inv _ _ Hm) as [r Hr].
        exists [], r. exact Hr.
      * intros Hocc. destruct IH as (pre & post & ->); [lia|].
        exists (c :: pre), post. reflexivity.
  - intros (pre & post & ->).
    pose proof (occurrences_app_r pre (sub ++ post) sub).
    pose proof (occurrences_match sub post). lia.
Qed.

Lemma occurrences_0 (s sub : str) :
  occurrences s sub = 0 <-> ~ contains s sub.
Proof. rewrite <- occurrences_contains. lia. Qed.

Lemma find_from_spec (i : Z) (s sub : str) :
  (0 <= i)%Z ->
  (occurrences s sub = 0 /\ find_from i s sub = (-1)%Z) \/
  (1 <= occurrences s sub /\ (i <= find_from i s sub)%Z).
Proof.
  revert i. induction s as [|c s IH]; intros i Hi;
    cbn [occurrences find_from].
  - destruct (startswith [] sub); [right | left]; split; lia.
  - destruct (startswith (c :: s) sub).
    + right. split; lia.
    + destruct (IH (i + 1)%Z) as [[H0 H1]|[H0 H1]]; [lia| |].
      * left. split; [lia | exact H1].
      * right. split; lia.
Qed.

Lemma find_absent (s sub : str) :
  occurrences s sub = 0 -> (-1 =? find s sub)%Z = true.
Proof.
  intros H0. unfold find.
  destruct (find_from_spec 0 s sub) as [[_ H]|[H _]]; [lia| |lia].
  rewrite H. reflexivity.
Qed.

Lemma find_present (s sub : str) :
  1 <= occurrences s sub -> (-1 =? find s sub)%Z = false.
Proof.
  intros H1. unfold find.
  destruct (find_from_spec 0 s sub) as [[H _]|[_ H]]; [lia|lia|].
  apply Z.eqb_neq. lia.
Qed.

(** Characters that cannot start a match do not count. *)
Lemma avoids_head_cons (c : ascii) (x sep : str) :
  avoids_head (c :: x) sep = true ->
  (forall s, startswith (c :: s) sep = false) /\ avoids_head x sep = true.
Proof.
  destruct sep as [|a p]; simpl; [discriminate|].
  intros Hx. apply andb_true_iff in Hx as [Hc Hx].
  apply negb_true_iff in Hc. split; [|exact Hx].
  intros s. rewrite Ascii.eqb_sym, Hc. reflexivity.
Qed.

Lemma occurrences_avoids_head (x r sep : str) :
  avoids_head x sep = true ->
  occurrences (x ++ r) sep = occurrences r sep.
Proof.
  induction x as [|c x IH]; intros Hx; [reflexivity|].
  apply avoids_head_cons in Hx as [Hc Hx].
  rewrite <- app_comm_cons, occurrences_cons, Hc, IH by exact Hx.
  reflexivity.
Qed.

Lemma occurrences_match_head_unique (sep r : str) :
  head_unique sep = true ->
  occurrences (sep ++ r) sep = S (occurrences r sep).
Proof.
  intros Hu. destruct sep as [|a p]; [discriminate|].
  change ((a :: p) ++ r) with (a :: (p ++ r)).
  rewrite occurrences_cons.
  change (a :: (p ++ r)) with ((a :: p) ++ r).
  rewrite startswith_app.
  rewrite occurrences_avoids_head; [reflexivity | exact Hu].
Qed.

(** *** The scan of replace and split *)

Lemma replace_scan_skip (old new a b : str) :
  replace_scan old new (length a) (a ++ b) = replace_scan old new 0 b.
Proof. induction a as [|c a IH]; [reflexivity | exact IH]. Qed.

Lemma split_scan_skip (sep a b : str) :
  split_scan sep (length a) (a ++ b) = split_scan sep 0 b.
Proof. induction a as [|c a IH]; [reflexivity | exact IH]. Qed.

Lemma replace_nil (old new : str) :
  old <> [] -> replace [] old new = [].
Proof. destruct old; [congruence | reflexivity]. Qed.

(** At a match [new] is emitted and the scan goes on after the match. *)
Lemma replace_match (old new rest : str) :
  old <> [] ->
  replace (old ++ rest) old new = new ++ replace rest old new.
Proof.
  intros Hne. destruct old as [|a p]; [congruence|].
  unfold replace. change ((a :: p) ++ rest) with (a :: (p ++ rest)).
  cbn [replace_scan].
  change (a :: (p ++ rest)) with ((a :: p) ++ rest).
  rewrite startswith_app.
  replace (length (a :: p) - 1) with (length p) by (simpl; lia).
  rewrite replace_scan_skip. reflexivity.
Qed.

(** Elsewhere the character is copied. *)
Lemma replace_copy (old new : str) (c : ascii) (s : str) :
  startswith (c :: s) old = false ->
  replace (c :: s) old new = c :: replace s old new.
Proof.
  intros Hm. destruct old as [|a p]; [discriminate|].
  unfold replace. cbn [replace_scan]. rewrite Hm. reflexivity.
Qed.

Lemma split_nil (sep : str) : split [] sep = [[]].
Proof. reflexivity. Qed.

Lemma split_match (sep rest : str) :
  sep <> [] -> split (sep ++ rest) sep = [] :: split rest sep.
Proof.
  intros Hne. destruct sep as [|a p]; [congruence|].
  unfold split. change ((a :: p) ++ rest) with (a :: (p ++ rest)).
  cbn [split_scan].
  change (a :: (p ++ rest)) with ((a :: p) ++ rest).
  rewrite startswith_app.
  replace (length (a :: p) - 1) with (length p) by (simpl; lia).
  rewrite split_scan_skip. reflexivity.
Qed.

Lemma split_copy (sep : str) (c : ascii) (s : str) :
  startswith (c :: s) sep = false ->
  split (c :: s) sep =
  match split s sep with
  | p :: ps => (c :: p) :: ps
  | [] => [[c]]
  end.
Proof.
  intros Hm. unfold split. cbn [split_scan]. rewrite Hm. reflexivity.
Qed.

(** Induction along the scan: the empty string, a match followed by the rest,
    a copied character followed by the rest. *)
Lemma scan_ind (sep : str) (P : str -> Prop) :
  sep <> [] ->
  P [] ->
  (forall rest, P rest -> P (sep ++ rest)) ->
  (forall c s, startswith (c :: s) sep = false -> P s -> P (c :: s)) ->
  forall s, P s.
Proof.
  intros Hne Hnil Hmatch Hcopy s.
  remember (length s) as n eqn:Hn.
  revert s Hn. induction n as [n IH] using lt_wf_ind. intros s Hn.
  destruct s as [|c s]; [exact Hnil|].
  destruct (startswith (c :: s) sep) eqn:Hm.
  - destruct (startswith_inv _ _ Hm) as [r Hr]. rewrite Hr.
    apply Hmatch. apply (IH (length r)); [|reflexivity].
    subst n. rewrite Hr, length_app.
    destruct sep; [congruence | simpl; lia].
  - apply Hcopy; [exact Hm|].
    apply (IH (length s)); [subst n; simpl; lia | reflexivity].
Qed.

Ltac scan_induction s sep Hne :=
  pattern s; apply (scan_ind sep); [exact Hne | | | ]; clear s.

(** *** replace *)

Lemma replace_absent (s old new : str) :
  occurrences s old = 0 -> replace s old new = s.
Proof.
  destruct old as [|a p].
  - destruct s; simpl; lia.
  - induction s as [|c s IH]; [reflexivity|].
    rewrite occurrences_cons.
    destruct (startswith (c :: s) (a :: p)) eqn:Hm; [lia|].
    intros H0. rewrite replace_copy, IH by (exact Hm || lia). reflexivity.
Qed.


(** A single match is replaced where it stands. *)
Lemma replace_once (pre post old new : str) :
  old <> [] ->
  occurrences (pre ++ old ++ post) old = 1 ->
  replace (pre ++ old ++ post) old new = pre ++ new ++ post.
Proof.
  intros Hne. induction pre as [|c pre IH]; intros H1.
  - cbn [app] in *. rewrite replace_match by exact Hne.
    rewrite replace_absent; [reflexivity|].
    destruct old as [|a p]; [congruence|].
    change ((a :: p) ++ post) with (a :: (p ++ post)) in H1.
    rewrite occurrences_cons in H1.
    change (a :: (p ++ post)) with ((a :: p) ++ post) in H1.
    rewrite startswith_app in H1.
    pose proof (occurrences_app_r p post (a :: p)). lia.
  - rewrite <- app_comm_cons in *. rewrite occurrences_cons in H1.
    pose proof (occurrences_app_r pre (old ++ post) old).
    pose proof (occurrences_match old post).
    destruct (startswith (c :: pre ++ old ++ post) old) eqn:Hm; [lia|].
    rewrite replace_copy, IH by (exact Hm || lia). reflexivity.
Qed.

(** The first match: what stands before it is copied, whatever follows the
    match. *)
Lemma replace_first (s old : str) :
  old <> [] ->
  1 <= occurrences s old ->
  exists pre post,
    s = pre ++ old ++ post /\
    forall new tail,
      replace (pre ++ old ++ tail) old new = pre ++ new ++ replace tail old new.
Proof.
  intros Hne. induction s as [|c s IH].
  - rewrite occurrences_nil by exact Hne. lia.
  - rewrite occurrences_cons.
    destruct (startswith (c :: s) old) eqn:Hm.
    + intros _. destruct (startswith_inv _ _ Hm) as [post Hpost].
      exists [], post. split; [exact Hpost|].
      intros new tail. cbn [app]. apply replace_match, Hne.
    + intros H1. destruct IH as (pre & post & Hs & Hrep); [lia|].
      exists (c :: pre), post. split; [rewrite Hs; reflexivity|].
      intros new tail. rewrite <- !app_comm_cons.
      rewrite replace_copy, Hrep; [reflexivity|].
      rewrite Hs in Hm.
      rewrite app_assoc, app_comm_cons in Hm |- *.
      rewrite startswith_app_long in Hm |- *;
        try (simpl; rewrite length_app; lia).
      exact Hm.
Qed.

(** *** split and join *)

Lemma join_cons (sep p : str) (ps : list str) :
  ps <> [] -> join sep (p :: ps) = p ++ sep ++ join sep ps.
Proof. destruct ps; [congruence | reflexivity]. Qed.

Lemma split_not_nil (s sep : str) : sep <> [] -> split s sep <> [].
Proof.
  intros Hne. scan_induction s sep Hne.
  - discriminate.
  - intros rest _. rewrite split_match by exact Hne. discriminate.
  - intros c s Hm _. rewrite split_copy by exact Hm.
    destruct (split s sep); discriminate.
Qed.

Lemma join_split (s sep : str) :
  sep <> [] -> join sep (split s sep) = s.
Proof.
  intros Hne. scan_induction s sep Hne;
    [ | intros rest IH | intros c s Hm IH].
  - reflexivity.
  - rewrite split_match by exact Hne.
    rewrite join_cons by (apply split_not_nil, Hne).
    rewrite IH. reflexivity.
  - rewrite split_copy by exact Hm.
    pose proof (split_not_nil s sep Hne) as Hnil.
    destruct (split s sep) as [|p ps]; [congruence|].
    rewrite <- IH. destruct ps; reflexivity.
Qed.

(** [replace] cuts at the matches and joins the pieces with [new]. *)
Lemma replace_join_split (s old new : str) :
  old <> [] -> replace s old new = join new (split s old).
Proof.
  intros Hne. scan_induction s old Hne;
    [ | intros rest IH | intros c s Hm IH].
  - apply replace_nil, Hne.
  - rewrite replace_match, split_match by exact Hne.
    rewrite join_cons by (apply split_not_nil, Hne).
    rewrite IH. reflexivity.
  - rewrite replace_copy, split_copy by exact Hm.
    pose proof (split_not_nil s old Hne) as Hnil.
    rewrite IH. destruct (split s old) as [|p ps]; [congruence|].
    destruct ps; reflexivity.
Qed.

(** No piece holds a match. *)
Lemma split_pieces_free (s sep : str) :
  sep <> [] -> Forall (fun p => occurrences p sep = 0) (split s sep).
Proof.
  intros Hne. scan_induction s sep Hne;
    [ | intros rest IH | intros c s Hm IH].
  - constructor; [|constructor]. apply occurrences_nil, Hne.
  - rewrite split_match by exact Hne.
    constructor; [apply occurrences_nil, Hne | exact IH].
  - rewrite split_copy by exact Hm.
    pose proof (join_split s sep Hne) as Hjoin.
    destruct (split s sep) as [|p ps].
    + constructor; [|constructor]. simpl in Hjoin. subst s.
      rewrite occurrences_cons, Hm. apply occurrences_nil, Hne.
    + inversion IH as [|? ? Hp Hps]; subst.
      constructor; [|exact Hps].
      rewrite occurrences_cons, Hp.
      destruct (startswith (c :: p) sep) eqn:Hcp; [|reflexivity].
      assert (exists t, c :: join sep (p :: ps) = (c :: p) ++ t) as [t Ht].
      { destruct ps; [exists []; simpl; rewrite app_nil_r; reflexivity|].
        eexists. reflexivity. }
      rewrite Ht, (startswith_app_mono _ _ _ Hcp) in Hm. discriminate.
Qed.

(** When matches cannot overlap there is one more piece than matches. *)
Lemma length_split (s sep : str) :
  head_unique sep = true ->
  length (split s sep) = S (occurrences s sep).
Proof.
  intros Hu. assert (Hne : sep <> []) by (destruct sep; discriminate).
  scan_induction s sep Hne; [ | intros rest IH | intros c s Hm IH].
  - rewrite occurrences_nil by exact Hne. reflexivity.
  - rewrite split_match by exact Hne.
    rewrite occurrences_match_head_unique by exact Hu.
    simpl. rewrite IH. reflexivity.
  - rewrite split_copy by exact Hm.
    rewrite occurrences_cons, Hm. cbn [Nat.add]. rewrite <- IH.
    destruct (split s sep); [simpl in IH; lia | reflexivity].
Qed.

(** *** A replacement that starts with the text it replaces

    The recipe replaces the anchor by the anchor followed by more text.  When
    the first character of [old] occurs nowhere else in [old], such a
    replacement creates no match and destroys none. *)

Lemma startswith_app_inv (x a b : str) :
  startswith x (a ++ b) = true -> startswith x a = true.
Proof.
  intros Hx. destruct (startswith_inv _ _ Hx) as [r ->].
  rewrite <- app_assoc. apply startswith_app.
Qed.

(** Text free of the first character of [old] starts the replaced string
    exactly when it starts the original. *)
Lemma startswith_replace (h : ascii) (o n t : str) :
  forallb (fun x => negb (Ascii.eqb x h)) t = true ->
  forall s, startswith (replace s (h :: o) (h :: n)) t = startswith s t.
Proof.
  induction t as [|a t IH]; intros Ht s.
  - rewrite !startswith_nil. reflexivity.
  - cbn [forallb] in Ht. apply andb_true_iff in Ht as [Ha Ht].
    apply negb_true_iff in Ha.
    destruct s as [|c s]; [reflexivity|].
    destruct (startswith (c :: s) (h :: o)) eqn:Hm.
    + destruct (startswith_inv _ _ Hm) as [r Hr].
      injection Hr as -> ->.
      change (h :: o ++ r) with ((h :: o) ++ r).
      rewrite replace_match by discriminate.
      cbn [app startswith]. rewrite Ha. reflexivity.
    + rewrite replace_copy by exact Hm.
      cbn [startswith]. rewrite (IH Ht). reflexivity.
Qed.

Lemma startswith_cons_replace (old ins : str) (c : ascii) (s : str) :
  head_unique old = true ->
  startswith (c :: replace s old (old ++ ins)) old = startswith (c :: s) old.
Proof.
  intros Hu. destruct old as [|h t]; [discriminate|].
  cbn [startswith app].
  rewrite (startswith_replace h t (t ++ ins) t Hu). reflexivity.
Qed.

(** The replaced string has as many matches as the original. *)
Lemma occurrences_replace (old ins : str) :
  head_unique old = true ->
  avoids_head ins old = true ->
  forall s, occurrences (replace s old (old ++ ins)) old = occurrences s old.
Proof.
  intros Hu Hins s.
  assert (Hne : old <> []) by (destruct old; discriminate).
  scan_induction s old Hne; [ | intros rest IH | intros c s Hm IH].
  - rewrite replace_nil by exact Hne. reflexivity.
  - rewrite replace_match by exact Hne.
    rewrite <- app_assoc.
    rewrite !occurrences_match_head_unique by exact Hu.
    rewrite occurrences_avoids_head by exact Hins.
    rewrite IH. reflexivity.
  - rewrite replace_copy by exact Hm.
    rewrite !occurrences_cons, startswith_cons_replace, IH by exact Hu.
    reflexivity.
Qed.

(** It is longer by the added text, once per match. *)
Lemma length_replace (old ins : str) :
  head_unique old = true ->
  forall s,
    length (replace s old (old ++ ins)) =
    length s + occurrences s old * length ins.
Proof.
  intros Hu s.
  assert (Hne : old <> []) by (destruct old; discriminate).
  scan_induction s old Hne; [ | intros rest IH | intros c s Hm IH].
  - rewrite replace_nil, occurrences_nil by exact Hne. reflexivity.
  - rewrite replace_match by exact Hne.
    rewrite occurrences_match_head_unique by exact Hu.
    rewrite !length_app, IH. cbn [Nat.mul]. lia.
  - rewrite replace_copy by exact Hm.
    rewrite occurrences_cons, Hm. cbn [length Nat.add]. rewrite IH. lia.
Qed.

(** Replacing back gives the original. *)
Lemma replace_undo (old ins : str) :
  head_unique old = true ->
  forall s, replace (replace s old (old ++ ins)) (old ++ ins) old = s.
Proof.
  intros Hu s.
  assert (Hne : old <> []) by (destruct old; discriminate).
  assert (Hnew : old ++ ins <> []) by (destruct old; discriminate).
  scan_induction s old Hne; [ | intros rest IH | intros c s Hm IH].
  - rewrite replace_nil by exact Hne. apply replace_nil, Hnew.
  - rewrite replace_match by exact Hne.
    rewrite replace_match by exact Hnew. rewrite IH. reflexivity.
  - rewrite replace_copy by exact Hm.
    rewrite replace_copy, IH; [reflexivity|].
    destruct (startswith (c :: replace s old (old ++ ins)) (old ++ ins))
      eqn:Hback; [|reflexivity].
    apply startswith_app_inv in Hback.
    rewrite startswith_cons_replace in Hback by exact Hu. congruence.
Qed.

End PyStrFacts.

(** ** Facts about the patterns *)

Module FnmatchFacts.
Import PyStr PyStrFacts Fnmatch.

Lemma fnmatchcase_nil (name : str) : fnmatchcase name [] = true -> name = [].
Proof. destruct name; [reflexivity | discriminate]. Qed.

Lemma fnmatchcase_literal_cons (c : ascii) (pat name : str) :
  literal c = true ->
  fnmatchcase name (c :: pat) =
  match name with
  | [] => false
  | d :: name' => Ascii.eqb c d && fnmatchcase name' pat
  end.
Proof.
  unfold literal. intros Hc. apply andb_true_iff in Hc as [Hstar Hany].
  apply negb_true_iff in Hstar, Hany.
  cbn [fnmatchcase]. rewrite Hstar.
  destruct name as [|d name]; [reflexivity|]. rewrite Hany. reflexivity.
Qed.

(** A pattern that begins with literal characters matches only names that
    begin with the same characters. *)
Lemma fnmatchcase_literal_prefix (p pat name : str) :
  forallb literal p = true ->
  fnmatchcase name (p ++ pat) = true ->
  exists rest, name = p ++ rest /\ fnmatchcase rest pat = true.
Proof.
  revert name. induction p as [|c p IH]; intros name Hp Hm.
  - exists name. split; [reflexivity | exact Hm].
  - cbn [forallb] in Hp. apply andb_true_iff in Hp as [Hc Hp].
    rewrite <- app_comm_cons, fnmatchcase_literal_cons in Hm by exact Hc.
    destruct name as [|d name]; [discriminate|].
    apply andb_true_iff in Hm as [Hcd Hm]. apply Ascii.eqb_eq in Hcd.
    subst d. destruct (IH name Hp Hm) as (rest & -> & Hrest).
    exists rest. split; [reflexivity | exact Hrest].
Qed.

(** A pattern of literal characters matches only itself. *)
Lemma fnmatchcase_literal (p name : str) :
  forallb literal p = true -> fnmatchcase name p = true -> name = p.
Proof.
  intros Hp Hm. rewrite <- (app_nil_r p) in Hm.
  destruct (fnmatchcase_literal_prefix p [] name Hp Hm) as (rest & -> & Hr).
  rewrite (fnmatchcase_nil rest Hr), app_nil_r. reflexivity.
Qed.

End FnmatchFacts.

(** ** Facts about the Conan calls *)

Module ConanFacts.
Import PyStr PyStrFacts Fnmatch Conan.

Lemma string_app_inj (p a b : string) : p +:+ a = p +:+ b -> a = b.
Proof.
  induction p as [|c p IH]; simpl; [trivial|].
  intros Heq. injection Heq as Heq. exact (IH Heq).
Qed.

#[export] Instance path_join_inj (dst : string) :
  Inj (=) (=) (path_join dst).
Proof.
  intros a b. destruct dst as [|c dst]; [trivial|].
  unfold path_join. intros Heq.
  apply string_app_inj in Heq. apply (string_app_inj "/") in Heq.
  exact Heq.
Qed.

(** A file is among the files to copy when it exists and matches. *)
Lemma files_to_copy_lookup (src : Files) (pattern dst name : string)
    (ignore_case : bool) :
  files_to_copy src pattern dst ignore_case !! path_join dst name =
  if filter_match ignore_case pattern name then src !! name else None.
Proof.
  unfold files_to_copy. rewrite lookup_kmap by apply _.
  destruct (filter_match ignore_case pattern name) eqn:Hm.
  - destruct (src !! name) as [c|] eqn:Hc.
    + apply map_lookup_filter_Some. split; [exact Hc | exact Hm].
    + apply map_lookup_filter_None. left. exact Hc.
  - apply map_lookup_filter_None. right. intros c _. simpl.
    rewrite Hm. discriminate.
Qed.

(** The copier called on one folder after another: the last folder that has
    a matching file of that name wins, else the destination keeps its own. *)
Lemma FileCopier_lookup (srcs : list Files) (root : Files)
    (pattern dst name : string) (ignore_case : bool) :
  FileCopier srcs root pattern dst ignore_case !! path_join dst name =
  if filter_match ignore_case pattern name
  then foldl (fun acc (src : Files) => src !! name ∪ acc)
         (root !! path_join dst name) srcs
  else root !! path_join dst name.
Proof.
  unfold FileCopier. revert root.
  induction srcs as [|src srcs IH]; intros root; simpl.
  - destruct (filter_match _ _ _); reflexivity.
  - rewrite IH, lookup_union, files_to_copy_lookup.
    destruct (filter_match ignore_case pattern name).
    + reflexivity.
    + destruct (root !! path_join dst name); reflexivity.
Qed.

(** The exported tree has exactly the files that match one of the patterns. *)
Lemma export_source_lookup (patterns : list string) (origin : Files)
    (name : string) :
  export_source patterns origin !! name =
  if existsb (fun pattern => filter_match true pattern name) patterns
  then origin !! name else None.
Proof.
  unfold export_source.
  enough (forall acc : Files,
    foldl (fun acc pattern => FileCopier [origin] acc pattern "" true)
      acc patterns !! name =
    (if existsb (fun pattern => filter_match true pattern name) patterns
     then origin !! name else None) ∪ acc !! name) as Hgen.
  { rewrite Hgen, lookup_empty.
    destruct (existsb _ _); [|reflexivity].
    destruct (origin !! name); reflexivity. }
  induction patterns as [|pattern patterns IH]; intros acc;
    cbn [foldl existsb].
  - destruct (acc !! name); reflexivity.
  - rewrite IH.
    pose proof (FileCopier_lookup [origin] acc pattern "" name true) as Hc.
    cbn [path_join foldl] in Hc. rewrite Hc.
    destruct (filter_match true pattern name),
      (existsb _ patterns), (origin !! name), (acc !! name); reflexivity.
Qed.

(** What one copier call may put into the destination: a file of [root], or
    a file of one of the source folders whose name matches, under its joined
    name. *)
Lemma FileCopier_lookup_Some (srcs : list Files) (root : Files)
    (pattern dst key : string) (ignore_case : bool) (c : str) :
  FileCopier srcs root pattern dst ignore_case !! key = Some c ->
  root !! key = Some c \/
  exists (src : Files) (name : string),
    In src srcs /\ key = path_join dst name /\ src !! name = Some c /\
    filter_match ignore_case pattern name = true.
Proof.
  unfold FileCopier. revert root.
  induction srcs as [|src srcs IH]; intros root Hc; cbn [foldl] in Hc.
  - left. exact Hc.
  - destruct (IH _ Hc) as [Hroot|(src' & name & Hin & Hk & Hs & Hm)].
    + apply lookup_union_Some_raw in Hroot as [Hnew|[_ Hroot]].
      * right. unfold files_to_copy in Hnew.
        apply lookup_kmap_Some in Hnew as (name & -> & Hf); [|apply _].
        apply map_lookup_filter_Some in Hf as [Hs Hm].
        exists src, name. split; [left; reflexivity|]. auto.
      * left. exact Hroot.
    + right. exists src', name. split; [right; exact Hin|]. auto.
Qed.

(** A copier call leaves alone every destination name that is not a joined
    name. *)
Lemma FileCopier_lookup_other (srcs : list Files) (root : Files)
    (pattern dst key : string) (ignore_case : bool) :
  (forall name, key <> path_join dst name) ->
  FileCopier srcs root pattern dst ignore_case !! key = root !! key.
Proof.
  intros Hkey. unfold FileCopier. revert root.
  induction srcs as [|src srcs IH]; intros root; cbn [foldl];
    [reflexivity|].
  rewrite IH. apply lookup_union_r. unfold files_to_copy.
  apply lookup_kmap_None; [apply _|].
  intros name Hname. destruct (Hkey name Hname).
Qed.

Section HelperFacts.
Context {tool : NativeBuild}.

Lemma run_eq (cmd : Command) (w : World) :
  run cmd w =
  let ran := log_invocation cmd (set_folders (run_tool cmd (folders w)).2 w) in
  if ((run_tool cmd (folders w)).1 =? 0)%Z
  then (Ok tt, ran)
  else (Raise (CommandFailed cmd (run_tool cmd (folders w)).1), ran).
Proof.
  unfold run, mbind, M_bind, get_world, modify.
  destruct (run_tool cmd (folders w)) as [retcode fs]; simpl.
  destruct (retcode =? 0)%Z; reflexivity.
Qed.

End HelperFacts.

End ConanFacts.

(** ** Properties of the recipe *)

Module UcblockConanSpec.
Import PyStr PyStrFacts Conan ConanFacts UcblockConan Samples.

Lemma anchor_not_nil : anchor <> [].
Proof. discriminate. Qed.

Lemma replacement_eq : replacement = anchor ++ inserted.
Proof. reflexivity. Qed.

(** [source()] on a world whose build description is [f]. *)
Lemma source_eq (w : World) (f : str) :
  source_folder (folders w) !! "CMakeLists.txt" = Some f ->
  source w =
  if (occurrences f anchor =? 0)%nat
  then (Raise (PatternNotFound "replace_in_file" anchor "CMakeLists.txt"), w)
  else (Ok tt, write_file "CMakeLists.txt" (replace f anchor replacement) w).
Proof.
  intros Hf.
  unfold source, replace_in_file, load, save, mbind, M_bind, get_world, modify.
  rewrite Hf. cbn [mret M_ret].
  destruct (occurrences f anchor) as [|n] eqn:Hocc.
  - rewrite find_absent by exact Hocc. reflexivity.
  - rewrite find_present by lia. reflexivity.
Qed.

(** [source()] succeeds only on a build description that has the anchor. *)
Lemma source_ok_inv (w w1 : World) :
  source w = (Ok tt, w1) ->
  exists f,
    source_folder (folders w) !! "CMakeLists.txt" = Some f /\
    1 <= occurrences f anchor /\
    w1 = write_file "CMakeLists.txt" (replace f anchor replacement) w.
Proof.
  intros Hrun.
  destruct (source_folder (folders w) !! "CMakeLists.txt") as [f|] eqn:Hf.
  - rewrite (source_eq w f Hf) in Hrun. exists f.
    destruct (occurrences f anchor) as [|n]; [discriminate|].
    injection Hrun as <-. split; [reflexivity|]. split; [lia | reflexivity].
  - unfold source, replace_in_file, load, mbind, M_bind, get_world in Hrun.
    rewrite Hf in Hrun. discriminate.
Qed.

Lemma write_file_lookup (w : World) (text : str) :
  source_folder (folders (write_file "CMakeLists.txt" text w))
    !! "CMakeLists.txt" = Some text.
Proof. apply lookup_insert_eq. Qed.

(** *** The Package-Info Publisher *)

(** C1: [package_info()] always succeeds and sets [includedirs] to
    [["include"; "include/SMS++"]] and [libs] to [["UCBlock"]]: the two values
    are constants, the same in every world (whatever the options, the folders,
    the commands run before and the previous [cpp_info]), and nothing else of
    the world changes. *)
Theorem package_info_constants (w : World) :
  package_info w =
    (Ok tt,
     set_cpp_info
       (mkCppInfo ["include"; "include/SMS++"] (libdirs (cpp_info w))
          (bindirs (cpp_info w)) ["UCBlock"]) w) /\
  includedirs (cpp_info (package_info w).2) = ["include"; "include/SMS++"] /\
  libs (cpp_info (package_info w).2) = ["UCBlock"].
Proof. repeat split. Qed.

(** C9: the published link name does not depend on the options: two runs of
    [package_info()] in worlds that differ in the values of [shared] and
    [fPIC] publish the same [cpp_info], with [libs = ["UCBlock"]] and the
    same [includedirs]. *)
Theorem package_info_option_independent (w : World) (o1 o2 : Options) :
  let published o := cpp_info (package_info (set_options o w)).2 in
  published o1 = published o2 /\
  libs (published o1) = ["UCBlock"] /\
  libs (published o2) = ["UCBlock"] /\
  includedirs (published o1) = includedirs (published o2).
Proof. repeat split. Qed.

(** *** The Configure Step *)

Section Configure.
Context {tool : NativeBuild}.

Lemma _configure_cmake_eq (w : World) :
  _configure_cmake w =
  let cmake :=
    set_definition "BUILD_TESTING" (VBool false)
      (mkCMake (helper_definitions (settings w) (options w))) in
  match run (Configure (definitions cmake)) w with
  | (Ok _, w') => (Ok cmake, w')
  | (Raise e, w') => (Raise e, w')
  end.
Proof.
  unfold _configure_cmake, CMake_new, configure, mbind, M_bind, get_world.
  cbn [mret M_ret].
  destruct (run _ w) as [[[]|e] w']; reflexivity.
Qed.

(** C2: for every value of [shared] and of [fPIC], [_configure_cmake()] hands
    exactly one command to the native tool, a configure command, and its
    definitions map [BUILD_TESTING] to [False]; this holds for every helper,
    also one that derives a [BUILD_TESTING] entry of its own from the
    options. *)
Theorem configure_disables_testing (sh fp : bool) (w : World) :
  let w0 := set_options (mkOptions sh fp) w in
  let defs :=
    <["BUILD_TESTING" := VBool false]>
      (helper_definitions (settings w0) (options w0)) in
  invocations (_configure_cmake w0).2 = invocations w0 ++ [Configure defs] /\
  defs !! "BUILD_TESTING" = Some (VBool false).
Proof.
  intros w0 defs. split; [|apply lookup_insert_eq].
  rewrite _configure_cmake_eq. cbn zeta. rewrite run_eq. cbn zeta.
  destruct (_ =? 0)%Z; reflexivity.
Qed.

(** The Build Step configures first: when it succeeds the tool has run the
    configure command and then the build command, both with status 0. *)
Lemma build_success (w w' : World) :
  build w = (Ok tt, w') ->
  let defs :=
    <["BUILD_TESTING" := VBool false]>
      (helper_definitions (settings w) (options w)) in
  invocations w' = invocations w ++ [Configure defs; Build] /\
  (run_tool (Configure defs) (folders w)).1 = 0%Z.
Proof.
  intros Hrun defs.
  unfold build, mbind, M_bind in Hrun.
  rewrite _configure_cmake_eq in Hrun. cbn zeta in Hrun.
  rewrite run_eq in Hrun. cbn zeta in Hrun.
  change (definitions (set_definition _ _ _)) with defs in Hrun.
  destruct ((run_tool (Configure defs) (folders w)).1 =? 0)%Z eqn:Hrc;
    [|discriminate].
  unfold Conan.build in Hrun. rewrite run_eq in Hrun. cbn zeta in Hrun.
  destruct (_ =? 0)%Z in Hrun; [|discriminate].
  injection Hrun as <-. split; [|apply Z.eqb_eq, Hrc].
  cbn. rewrite <- app_assoc. reflexivity.
Qed.

End Configure.

(** *** The Source Patcher *)

(** C5: when the build description has no occurrence of the anchor
    [LANGUAGES C CXX)], [source()] raises the "pattern not found" exception
    of [replace_in_file] and leaves the world, the file included, as it
    was. *)
Theorem source_absent_anchor_fails (w : World) (f : str) :
  source_folder (folders w) !! "CMakeLists.txt" = Some f ->
  occurrences f anchor = 0 ->
  source w =
    (Raise (PatternNotFound "replace_in_file" anchor "CMakeLists.txt"), w).
Proof.
  intros Hf H0. rewrite (source_eq w f Hf), H0. reflexivity.
Qed.

Lemma source_absent_anchor_fails_witness :
  source (world_of cmakelists_plain) =
    (Raise (PatternNotFound "replace_in_file" anchor "CMakeLists.txt"),
     world_of cmakelists_plain).
Proof.
  apply (source_absent_anchor_fails (world_of cmakelists_plain)
           cmakelists_plain); reflexivity.
Defined.

(** C6: when the anchor occurs exactly once, after [pre] and before [post],
    [source()] succeeds and the build description becomes [pre], the anchor,
    a line break, the include of [conanbuildinfo.cmake], a line break, the
    call [conan_basic_setup()], and [post]; no other file changes.  The new
    text is what a read of [CMakeLists.txt] in the resulting world gives, it
    is 70 characters longer than the old one, and every other file of the
    source folder reads as before. *)
Theorem source_single_anchor (w : World) (pre post : str) :
  source_folder (folders w) !! "CMakeLists.txt" = Some (pre ++ anchor ++ post) ->
  occurrences (pre ++ anchor ++ post) anchor = 1 ->
  let patched :=
    pre ++ anchor ++ nl ++ include_line ++ nl ++ setup_line ++ post in
  source w = (Ok tt, write_file "CMakeLists.txt" patched w) /\
  source_folder (folders (source w).2) !! "CMakeLists.txt" = Some patched /\
  length patched = length (pre ++ anchor ++ post) + 70 /\
  forall path, path <> "CMakeLists.txt" ->
    source_folder (folders (source w).2) !! path =
    source_folder (folders w) !! path.
Proof.
  intros Hf H1 patched.
  assert (source w = (Ok tt, write_file "CMakeLists.txt" patched w)) as Hrun.
  { rewrite (source_eq w _ Hf), H1. cbn [Nat.eqb].
    rewrite (replace_once pre post anchor replacement anchor_not_nil H1).
    reflexivity. }
  split; [exact Hrun|]. rewrite Hrun. cbn [snd].
  split; [apply write_file_lookup|].
  split.
  - change patched with (pre ++ anchor ++ inserted ++ post).
    rewrite !length_app. change (length inserted) with 70. lia.
  - intros path Hpath. apply lookup_insert_ne. congruence.
Qed.

Lemma source_single_anchor_witness :
  let w := world_of cmakelists in
  source w = (Ok tt, write_file "CMakeLists.txt" cmakelists_patched w) /\
  source_folder (folders (source w).2) !! "CMakeLists.txt" =
    Some cmakelists_patched /\
  length cmakelists_patched = length cmakelists + 70 /\
  forall path, path <> "CMakeLists.txt" ->
    source_folder (folders (source w).2) !! path =
    source_folder (folders w) !! path.
Proof.
  apply (source_single_anchor (world_of cmakelists)
           (lit "cmake_minimum_required(VERSION 3.19)" ++ nl ++
            lit "project(UCBlock VERSION 0.6.2 ")
           (nl ++ lit "add_subdirectory(src)" ++ nl)); reflexivity.
Defined.






(** C4, as stated, fails: on a build description with two occurrences of the
    anchor [source()] does not fail; it succeeds and inserts the two lines
    after both. *)
Lemma source_two_anchors_succeeds :
  occurrences cmakelists_two anchor = 2 /\
  source (world_of cmakelists_two) =
    (Ok tt,
     write_file "CMakeLists.txt" cmakelists_two_patched
       (world_of cmakelists_two)).
Proof.
  split; [reflexivity|].
  rewrite (source_eq _ cmakelists_two); reflexivity.
Qed.

(** C4, amended: when the anchor occurs more than once, [source()] succeeds
    and applies the substitution at every occurrence.  Cut at its anchors,
    the file is a list of pieces free of the anchor, one more than there are
    occurrences; the new file is the same pieces joined by the anchor
    followed by the inserted lines.  The new text is what a read of
    [CMakeLists.txt] in the resulting world gives; it is longer than the old
    one by the 70 inserted characters once per occurrence, so by 140 at
    least. *)
Theorem source_patches_every_anchor (w : World) (f : str) :
  source_folder (folders w) !! "CMakeLists.txt" = Some f ->
  2 <= occurrences f anchor ->
  let pieces := split f anchor in
  let patched := join (anchor ++ inserted) pieces in
  source w = (Ok tt, write_file "CMakeLists.txt" patched w) /\
  source_folder (folders (source w).2) !! "CMakeLists.txt" = Some patched /\
  length patched = length f + 70 * occurrences f anchor /\
  f = join anchor pieces /\
  length pieces = S (occurrences f anchor) /\
  Forall (fun p => occurrences p anchor = 0) pieces.
Proof.
  intros Hf H2 pieces patched. subst pieces patched.
  assert (replace f anchor replacement =
          join (anchor ++ inserted) (split f anchor)) as Hpatched.
  { rewrite (replace_join_split f anchor replacement anchor_not_nil).
    reflexivity. }
  assert (source w =
    (Ok tt,
     write_file "CMakeLists.txt"
       (join (anchor ++ inserted) (split f anchor)) w)) as Hrun.
  { rewrite (source_eq w f Hf), <- Hpatched.
    destruct (occurrences f anchor) as [|n]; [lia|]. reflexivity. }
  split; [exact Hrun|]. rewrite Hrun. cbn [snd].
  split; [apply write_file_lookup|].
  split; [|split; [|split]].
  - rewrite <- Hpatched, replacement_eq, length_replace by reflexivity.
    change (length inserted) with 70. lia.
  - symmetry. apply join_split, anchor_not_nil.
  - apply length_split. reflexivity.
  - apply split_pieces_free, anchor_not_nil.
Qed.

Lemma source_patches_every_anchor_witness :
  let w := world_of cmakelists_two in
  let pieces := split cmakelists_two anchor in
  let patched := join (anchor ++ inserted) pieces in
  source w = (Ok tt, write_file "CMakeLists.txt" patched w) /\
  source_folder (folders (source w).2) !! "CMakeLists.txt" = Some patched /\
  length patched =
    length cmakelists_two + 70 * occurrences cmakelists_two anchor /\
  cmakelists_two = join anchor pieces /\
  length pieces = S (occurrences cmakelists_two anchor) /\
  Forall (fun p => occurrences p anchor = 0) pieces.
Proof.
  apply (source_patches_every_anchor (world_of cmakelists_two)
           cmakelists_two); [reflexivity | vm_compute; lia].
Defined.

(** *** The Package Step *)

Section Package.
Context {tool : NativeBuild}.

Lemma package_eq (w : World) :
  package w =
  match
    _configure_cmake
      (set_folders (copied "LICENSE" "licenses" (folders w)) w)
  with
  | (Ok cmake, w2) => run Install w2
  | (Raise e, w2) => (Raise e, w2)
  end.
Proof. reflexivity. Qed.

(** C7, amended: [package()] reports success only if every sub-action
    completed: the licence copy was made, the configure command ran on the
    folders so staged and exited with status 0, and the install target then
    ran and exited with status 0 (so a non-zero status of either command
    fails the step).  The copy stages the [LICENSE] files it finds and makes
    no check that there is one. *)
Theorem package_success_means_all_ran (w w' : World) :
  package w = (Ok tt, w') ->
  let staged := copied "LICENSE" "licenses" (folders w) in
  let defs :=
    <["BUILD_TESTING" := VBool false]>
      (helper_definitions (settings w) (options w)) in
  exists configured : Folders,
    run_tool (Configure defs) staged = (0%Z, configured) /\
    run_tool Install configured = (0%Z, folders w') /\
    invocations w' = invocations w ++ [Configure defs; Install].
Proof.
  intros Hrun staged defs.
  rewrite package_eq, _configure_cmake_eq in Hrun. cbn zeta in Hrun.
  rewrite run_eq in Hrun. cbn zeta in Hrun.
  change (definitions (set_definition _ _ _)) with defs in Hrun.
  change (folders (set_folders _ w)) with staged in Hrun.
  destruct (run_tool (Configure defs) staged) as [rc1 configured] eqn:Hc.
  cbn [fst snd] in Hrun.
  destruct (rc1 =? 0)%Z eqn:Hrc1; [|discriminate].
  apply Z.eqb_eq in Hrc1. subst rc1.
  rewrite run_eq in Hrun. cbn zeta in Hrun.
  change (folders (log_invocation _ (set_folders configured _)))
    with configured in Hrun.
  destruct (run_tool Install configured) as [rc2 installed] eqn:Hi.
  cbn [fst snd] in Hrun.
  destruct (rc2 =? 0)%Z eqn:Hrc2; [|discriminate].
  apply Z.eqb_eq in Hrc2. subst rc2.
  injection Hrun as <-. exists configured.
  split; [reflexivity|]. split; [exact Hi|].
  cbn. rewrite <- app_assoc. reflexivity.
Qed.

End Package.

Lemma package_success_means_all_ran_witness :
  let w := world_with repository in
  let w' :=
    log_invocation Install
      (log_invocation
         (Configure
            (<["BUILD_TESTING" := VBool false]>
               (helper_definitions (NativeBuild := quiet_tool)
                  linux_release default_options)))
         (set_folders (copied "LICENSE" "licenses" (folders w)) w)) in
  let staged := copied "LICENSE" "licenses" (folders w) in
  let defs :=
    <["BUILD_TESTING" := VBool false]>
      (helper_definitions (NativeBuild := quiet_tool)
         (settings w) (options w)) in
  exists configured : Folders,
    run_tool (NativeBuild := quiet_tool) (Configure defs) staged =
      (0%Z, configured) /\
    run_tool (NativeBuild := quiet_tool) Install configured =
      (0%Z, folders w') /\
    invocations w' = invocations w ++ [Configure defs; Install].
Proof.
  intros w w'.
  apply (package_success_means_all_ran (tool := quiet_tool) w w').
  reflexivity.
Defined.

(** C7, as stated, fails: with no [LICENSE] in the source or build folder
    and a native tool whose commands succeed, [package()] reports success,
    configure and install have run, and the package folder has no
    [licenses/LICENSE]. *)
Lemma package_succeeds_without_license :
  let w := world_of cmakelists_patched in
  let done := package (tool := quiet_tool) w in
  done.1 = Ok tt /\
  invocations done.2 =
    [Configure
       (<["BUILD_TESTING" := VBool false]>
          (helper_definitions (NativeBuild := quiet_tool)
             linux_release default_options));
     Install] /\
  package_folder (folders done.2) !! "licenses/LICENSE" = None.
Proof. cbn zeta. repeat split. Qed.

(** *** The exported sources *)

(** The export keeps a file exactly when its name matches one of the five
    patterns. *)
Lemma exported_lookup (recipe_folder : Files) (name : string) :
  exported recipe_folder !! name =
  if existsb (fun pattern => filter_match true pattern name) exports_sources
  then recipe_folder !! name else None.
Proof. apply export_source_lookup. Qed.

(** C8: [exports_sources] is the five patterns [CMakeLists.txt], [src/*],
    [include/*], [cmake/*], [tools/*] and has no entry for [LICENSE]: the
    export drops the [LICENSE] of every recipe folder.  On the sample
    repository, which has a [LICENSE], the exported tree has none, and
    [package()] run on it succeeds with no [licenses/LICENSE]. *)
Theorem exports_sources_omit_license :
  exports_sources =
    ["CMakeLists.txt"; "src/*"; "include/*"; "cmake/*"; "tools/*"] /\
  ~ In "LICENSE" exports_sources /\
  (forall recipe_folder : Files, exported recipe_folder !! "LICENSE" = None) /\
  repository !! "LICENSE" = Some (lit "GNU GENERAL PUBLIC LICENSE") /\
  exported repository !! "CMakeLists.txt" = Some cmakelists /\
  let done := package (tool := quiet_tool) (world_with (exported repository)) in
  done.1 = Ok tt /\
  package_folder (folders done.2) !! "licenses/LICENSE" = None.
Proof.
  split; [reflexivity|].
  split; [intros Hin; repeat (destruct Hin as [Hin|Hin]; [discriminate|]);
          exact Hin|].
  split; [intros recipe_folder; rewrite exported_lookup; reflexivity|].
  split; [reflexivity|].
  split; [rewrite exported_lookup; reflexivity|].
  cbn zeta. split; vm_compute; reflexivity.
Qed.

End UcblockConanSpec.

(** ** Further properties of the recipe's methods *)

Module UcblockConanMore.
Import PyStr PyStrFacts Fnmatch FnmatchFacts Conan ConanFacts UcblockConan.
Import Samples UcblockConanSpec.

(** *** Configure, build and package against the native tool *)

Section Steps.
Context {tool : NativeBuild}.

(** The definitions [_configure_cmake()] hands to the tool in world [w]. *)
#[local] Abbreviation configure_defs w :=
  (<["BUILD_TESTING" := VBool false]>
     (helper_definitions (settings w) (options w))).

(** The world after the tool has run [cmd] and left the folders [fs]. *)
#[local] Abbreviation after cmd fs w :=
  (log_invocation cmd (set_folders fs w)).

Lemma _configure_cmake_run (w : World) (rc : Z) (fs : Folders) :
  run_tool (Configure (configure_defs w)) (folders w) = (rc, fs) ->
  _configure_cmake w =
    (if (rc =? 0)%Z then Ok (mkCMake (configure_defs w))
     else Raise (CommandFailed (Configure (configure_defs w)) rc),
     after (Configure (configure_defs w)) fs w).
Proof.
  intros Hrun. rewrite _configure_cmake_eq. cbn zeta. rewrite run_eq.
  cbn zeta.
  change (definitions (set_definition _ _ _)) with (configure_defs w).
  rewrite Hrun. cbn [fst snd]. destruct (rc =? 0)%Z; reflexivity.
Qed.

Lemma run_run (cmd : Command) (w : World) (rc : Z) (fs : Folders) :
  run_tool cmd (folders w) = (rc, fs) ->
  run cmd w =
    (if (rc =? 0)%Z then Ok tt else Raise (CommandFailed cmd rc),
     after cmd fs w).
Proof.
  intros Hrun. rewrite run_eq. cbn zeta. rewrite Hrun. cbn [fst snd].
  destruct (rc =? 0)%Z; reflexivity.
Qed.

(** The handle [_configure_cmake()] returns carries the helper's definitions
    with [BUILD_TESTING] set to [False] and every other key as the helper
    derived it. *)
Theorem _configure_cmake_handle (w w' : World) (cmake : CMake) :
  _configure_cmake w = (Ok cmake, w') ->
  definitions cmake !! "BUILD_TESTING" = Some (VBool false) /\
  forall key, key <> "BUILD_TESTING" ->
    definitions cmake !! key =
    helper_definitions (settings w) (options w) !! key.
Proof.
  intros Hrun.
  destruct (run_tool (Configure (configure_defs w)) (folders w))
    as [rc fs] eqn:Htool.
  rewrite (_configure_cmake_run w rc fs Htool) in Hrun.
  destruct (rc =? 0)%Z; [|discriminate]. injection Hrun as <- _.
  split; [apply lookup_insert_eq|].
  intros key Hkey. apply lookup_insert_ne. congruence.
Qed.

(** When the configure command exits with a non-zero status,
    [_configure_cmake()] raises with that command and status and returns no
    handle; the command has been run once and its effect on the folders
    stays. *)
Theorem _configure_cmake_failure (w : World) (rc : Z) (fs : Folders) :
  run_tool (Configure (configure_defs w)) (folders w) = (rc, fs) ->
  rc <> 0%Z ->
  _configure_cmake w =
    (Raise (CommandFailed (Configure (configure_defs w)) rc),
     after (Configure (configure_defs w)) fs w).
Proof.
  intros Htool Hrc. rewrite (_configure_cmake_run w rc fs Htool).
  apply Z.eqb_neq in Hrc. rewrite Hrc. reflexivity.
Qed.

(** [build()] stops at a failed configuration: it raises the configure
    error and the build command is never run. *)
Theorem build_stops_at_failed_configure (w : World) (rc : Z) (fs : Folders) :
  run_tool (Configure (configure_defs w)) (folders w) = (rc, fs) ->
  rc <> 0%Z ->
  build w =
    (Raise (CommandFailed (Configure (configure_defs w)) rc),
     after (Configure (configure_defs w)) fs w) /\
  ~ In Build (drop (length (invocations w)) (invocations (build w).2)).
Proof.
  intros Htool Hrc.
  assert (build w =
    (Raise (CommandFailed (Configure (configure_defs w)) rc),
     after (Configure (configure_defs w)) fs w)) as Heq.
  { unfold build, mbind, M_bind.
    rewrite (_configure_cmake_failure w rc fs Htool Hrc). reflexivity. }
  split; [exact Heq|]. rewrite Heq. cbn [snd invocations log_invocation].
  rewrite drop_app_length. intros [Hin|[]]. discriminate.
Qed.

(** When configuration succeeds and the build command exits with a non-zero
    status, [build()] raises with the build command and that status, after
    both commands have run. *)
Theorem build_failed_compile (w : World) (fs1 fs2 : Folders) (rc : Z) :
  run_tool (Configure (configure_defs w)) (folders w) = (0%Z, fs1) ->
  run_tool Build fs1 = (rc, fs2) ->
  rc <> 0%Z ->
  build w =
    (Raise (CommandFailed Build rc),
     after Build fs2 (after (Configure (configure_defs w)) fs1 w)).
Proof.
  intros Hconf Hbuild Hrc. unfold build, mbind, M_bind.
  rewrite (_configure_cmake_run w 0 fs1 Hconf). cbn [Z.eqb].
  unfold Conan.build.
  rewrite (run_run Build (after (Configure (configure_defs w)) fs1 w) rc fs2
             Hbuild).
  apply Z.eqb_neq in Hrc. rewrite Hrc. reflexivity.
Qed.

(** When both commands exit with status 0, [build()] succeeds; the tool has
    run configure and then build, the second on the folders the first
    left. *)
Theorem build_succeeds (w : World) (fs1 fs2 : Folders) :
  run_tool (Configure (configure_defs w)) (folders w) = (0%Z, fs1) ->
  run_tool Build fs1 = (0%Z, fs2) ->
  build w =
    (Ok tt, after Build fs2 (after (Configure (configure_defs w)) fs1 w)).
Proof.
  intros Hconf Hbuild. unfold build, mbind, M_bind.
  rewrite (_configure_cmake_run w 0 fs1 Hconf). cbn [Z.eqb].
  unfold Conan.build.
  rewrite (run_run Build (after (Configure (configure_defs w)) fs1 w) 0 fs2
             Hbuild).
  reflexivity.
Qed.

(** [package()] stops at a failed configuration: it raises the configure
    error and the install target is never run.  The licence copy was made
    before, so the tool saw the staged folders and the copy is not undone. *)
Theorem package_stops_at_failed_configure (w : World) (rc : Z)
    (fs : Folders) :
  let staged := copied "LICENSE" "licenses" (folders w) in
  run_tool (Configure (configure_defs w)) staged = (rc, fs) ->
  rc <> 0%Z ->
  package w =
    (Raise (CommandFailed (Configure (configure_defs w)) rc),
     after (Configure (configure_defs w)) fs w).
Proof.
  intros staged Htool Hrc. subst staged. rewrite package_eq.
  rewrite (_configure_cmake_failure
             (set_folders (copied "LICENSE" "licenses" (folders w)) w) rc fs
             Htool Hrc).
  reflexivity.
Qed.

(** When configuration succeeds and the install target exits with a non-zero
    status, [package()] raises with the install command and that status. *)
Theorem package_failed_install (w : World) (fs1 fs2 : Folders) (rc : Z) :
  let staged := copied "LICENSE" "licenses" (folders w) in
  run_tool (Configure (configure_defs w)) staged = (0%Z, fs1) ->
  run_tool Install fs1 = (rc, fs2) ->
  rc <> 0%Z ->
  package w =
    (Raise (CommandFailed Install rc),
     after Install fs2 (after (Configure (configure_defs w)) fs1 w)).
Proof.
  intros staged Hconf Hinst Hrc. subst staged. rewrite package_eq.
  rewrite (_configure_cmake_run
             (set_folders (copied "LICENSE" "licenses" (folders w)) w) 0 fs1
             Hconf).
  cbn [Z.eqb].
  rewrite (run_run Install
             (after (Configure (configure_defs w)) fs1 w) rc fs2 Hinst).
  apply Z.eqb_neq in Hrc. rewrite Hrc. reflexivity.
Qed.

(** When both commands exit with status 0, [package()] succeeds: configure
    ran on the folders with the licence copy staged, install on the folders
    configure left, and the world ends with the folders install left. *)
Theorem package_succeeds (w : World) (fs1 fs2 : Folders) :
  let staged := copied "LICENSE" "licenses" (folders w) in
  run_tool (Configure (configure_defs w)) staged = (0%Z, fs1) ->
  run_tool Install fs1 = (0%Z, fs2) ->
  package w =
    (Ok tt, after Install fs2 (after (Configure (configure_defs w)) fs1 w)).
Proof.
  intros staged Hconf Hinst. subst staged. rewrite package_eq.
  rewrite (_configure_cmake_run
             (set_folders (copied "LICENSE" "licenses" (folders w)) w) 0 fs1
             Hconf).
  cbn [Z.eqb].
  rewrite (run_run Install
             (after (Configure (configure_defs w)) fs1 w) 0 fs2 Hinst).
  reflexivity.
Qed.

End Steps.

Lemma _configure_cmake_handle_witness :
  let w := world_of cmakelists_patched in
  let cmake := mkCMake
    (<["BUILD_TESTING" := VBool false]>
       (helper_definitions (NativeBuild := quiet_tool)
          (settings w) (options w))) in
  definitions cmake !! "BUILD_TESTING" = Some (VBool false) /\
  forall key, key <> "BUILD_TESTING" ->
    definitions cmake !! key =
    helper_definitions (NativeBuild := quiet_tool)
      (settings w) (options w) !! key.
Proof.
  intros w cmake.
  apply (_configure_cmake_handle (tool := quiet_tool) w
           (log_invocation (Configure (definitions cmake)) w) cmake).
  reflexivity.
Defined.

Lemma _configure_cmake_failure_witness :
  let tool := tool_failing_on is_configure in
  let w := world_of cmakelists_patched in
  let defs :=
    <["BUILD_TESTING" := VBool false]>
      (helper_definitions (NativeBuild := tool) (settings w) (options w)) in
  _configure_cmake (tool := tool) w =
    (Raise (CommandFailed (Configure defs) 2),
     log_invocation (Configure defs) (set_folders (folders w) w)).
Proof.
  intros tool w defs.
  apply (_configure_cmake_failure (tool := tool) w 2 (folders w));
    [reflexivity | discriminate].
Defined.

Lemma build_stops_at_failed_configure_witness :
  let tool := tool_failing_on is_configure in
  let w := world_of cmakelists_patched in
  let defs :=
    <["BUILD_TESTING" := VBool false]>
      (helper_definitions (NativeBuild := tool) (settings w) (options w)) in
  build (tool := tool) w =
    (Raise (CommandFailed (Configure defs) 2),
     log_invocation (Configure defs) (set_folders (folders w) w)) /\
  ~ In Build
      (drop (length (invocations w))
         (invocations (build (tool := tool) w).2)).
Proof.
  intros tool w defs.
  apply (build_stops_at_failed_configure (tool := tool) w 2 (folders w));
    [reflexivity | discriminate].
Defined.

Lemma build_failed_compile_witness :
  let tool := tool_failing_on is_build in
  let w := world_of cmakelists_patched in
  let defs :=
    <["BUILD_TESTING" := VBool false]>
      (helper_definitions (NativeBuild := tool) (settings w) (options w)) in
  build (tool := tool) w =
    (Raise (CommandFailed Build 2),
     log_invocation Build
       (set_folders (folders w)
          (log_invocation (Configure defs) (set_folders (folders w) w)))).
Proof.
  intros tool w defs.
  apply (build_failed_compile (tool := tool) w (folders w) (folders w) 2);
    [reflexivity | reflexivity | discriminate].
Defined.

Lemma build_succeeds_witness :
  let w := world_of cmakelists_patched in
  let defs :=
    <["BUILD_TESTING" := VBool false]>
      (helper_definitions (NativeBuild := quiet_tool)
         (settings w) (options w)) in
  build (tool := quiet_tool) w =
    (Ok tt,
     log_invocation Build
       (set_folders (folders w)
          (log_invocation (Configure defs) (set_folders (folders w) w)))).
Proof.
  intros w defs.
  apply (build_succeeds (tool := quiet_tool) w (folders w) (folders w));
    reflexivity.
Defined.

Lemma package_stops_at_failed_configure_witness :
  let tool := tool_failing_on is_configure in
  let w := world_with licensed_sources in
  let staged := copied "LICENSE" "licenses" (folders w) in
  let defs :=
    <["BUILD_TESTING" := VBool false]>
      (helper_definitions (NativeBuild := tool) (settings w) (options w)) in
  package (tool := tool) w =
    (Raise (CommandFailed (Configure defs) 2),
     log_invocation (Configure defs) (set_folders staged w)).
Proof.
  intros tool w staged defs.
  apply (package_stops_at_failed_configure (tool := tool) w 2 staged);
    [reflexivity | discriminate].
Defined.

Lemma package_failed_install_witness :
  let tool := tool_failing_on is_install in
  let w := world_with licensed_sources in
  let staged := copied "LICENSE" "licenses" (folders w) in
  let defs :=
    <["BUILD_TESTING" := VBool false]>
      (helper_definitions (NativeBuild := tool) (settings w) (options w)) in
  package (tool := tool) w =
    (Raise (CommandFailed Install 2),
     log_invocation Install
       (set_folders staged
          (log_invocation (Configure defs) (set_folders staged w)))).
Proof.
  intros tool w staged defs.
  apply (package_failed_install (tool := tool) w staged staged 2);
    [reflexivity | reflexivity | discriminate].
Defined.

Lemma package_succeeds_witness :
  let w := world_with licensed_sources in
  let staged := copied "LICENSE" "licenses" (folders w) in
  let defs :=
    <["BUILD_TESTING" := VBool false]>
      (helper_definitions (NativeBuild := quiet_tool)
         (settings w) (options w)) in
  package (tool := quiet_tool) w =
    (Ok tt,
     log_invocation Install
       (set_folders staged
          (log_invocation (Configure defs) (set_folders staged w)))).
Proof.
  intros w staged defs.
  apply (package_succeeds (tool := quiet_tool) w staged staged);
    reflexivity.
Defined.

(** *** The Source Patcher: failures, frame, and what a patch preserves *)

Lemma replace_in_file_strict (file_path : string) (search replace_ f : str)
    (w : World) :
  source_folder (folders w) !! file_path = Some f ->
  replace_in_file file_path search replace_ true w =
  if (occurrences f search =? 0)%nat
  then (Raise (PatternNotFound "replace_in_file" search file_path), w)
  else (Ok tt, write_file file_path (replace f search replace_) w).
Proof.
  intros Hf.
  unfold replace_in_file, load, save, mbind, M_bind, get_world, modify.
  rewrite Hf. cbn [mret M_ret].
  destruct (occurrences f search) as [|n] eqn:Hocc.
  - rewrite find_absent by exact Hocc. reflexivity.
  - rewrite find_present by lia. reflexivity.
Qed.

Lemma write_file_same (file_path : string) (f : str) (w : World) :
  source_folder (folders w) !! file_path = Some f ->
  write_file file_path f w = w.
Proof.
  destruct w as [o se ci [sf bf pf] inv]. cbn. intros Hf.
  unfold write_file, set_folders, set_source_folder. cbn.
  rewrite (insert_id sf file_path f Hf). reflexivity.
Qed.

Lemma write_file_twice (file_path : string) (f g : str) (w : World) :
  write_file file_path g (write_file file_path f w) = write_file file_path g w.
Proof.
  destruct w as [o se ci [sf bf pf] inv].
  unfold write_file, set_folders, set_source_folder. cbn.
  rewrite insert_insert_eq. reflexivity.
Qed.

(** Without a [CMakeLists.txt] in the source folder [source()] raises the
    error of opening the missing file and changes nothing. *)
Theorem source_missing_file (w : World) :
  source_folder (folders w) !! "CMakeLists.txt" = None ->
  source w = (Raise (FileNotFoundError "CMakeLists.txt"), w).
Proof.
  intros Hf. unfold source, replace_in_file, load, mbind, M_bind, get_world.
  rewrite Hf. reflexivity.
Qed.

Lemma source_missing_file_witness :
  source (world_with ∅) =
    (Raise (FileNotFoundError "CMakeLists.txt"), world_with ∅).
Proof. apply (source_missing_file (world_with ∅)). reflexivity. Defined.

(** A successful [source()] writes [CMakeLists.txt] and nothing else: every
    other file of the source folder, the build and package folders, the
    options, settings and [cpp_info] are as before, and no native command is
    run. *)
Theorem source_touches_one_file (w w' : World) :
  source w = (Ok tt, w') ->
  (forall path, path <> "CMakeLists.txt" ->
     source_folder (folders w') !! path = source_folder (folders w) !! path) /\
  build_folder (folders w') = build_folder (folders w) /\
  package_folder (folders w') = package_folder (folders w) /\
  options w' = options w /\ settings w' = settings w /\
  cpp_info w' = cpp_info w /\ invocations w' = invocations w.
Proof.
  intros Hrun. destruct (source_ok_inv w w' Hrun) as (f & _ & _ & ->).
  split; [|repeat split].
  intros path Hpath. apply lookup_insert_ne. congruence.
Qed.

Lemma source_touches_one_file_witness :
  let w := world_with licensed_sources in
  let w' := write_file "CMakeLists.txt"
              (replace cmakelists_patched anchor replacement) w in
  (forall path, path <> "CMakeLists.txt" ->
     source_folder (folders w') !! path = source_folder (folders w) !! path) /\
  build_folder (folders w') = build_folder (folders w) /\
  package_folder (folders w') = package_folder (folders w) /\
  options w' = options w /\ settings w' = settings w /\
  cpp_info w' = cpp_info w /\ invocations w' = invocations w.
Proof.
  intros w w'. apply (source_touches_one_file w w').
  rewrite (source_eq w cmakelists_patched); reflexivity.
Defined.

(** Patching neither adds nor removes an anchor: after a successful
    [source()] the build description has exactly as many occurrences of the
    anchor as before. *)
Theorem source_preserves_anchor_count (w w' : World) (f : str) :
  source_folder (folders w) !! "CMakeLists.txt" = Some f ->
  source w = (Ok tt, w') ->
  exists f',
    source_folder (folders w') !! "CMakeLists.txt" = Some f' /\
    occurrences f' anchor = occurrences f anchor.
Proof.
  intros Hf Hrun. destruct (source_ok_inv w w' Hrun) as (g & Hg & _ & ->).
  assert (g = f) as -> by congruence.
  exists (replace f anchor replacement).
  split; [apply write_file_lookup|].
  rewrite replacement_eq. apply occurrences_replace; reflexivity.
Qed.

Lemma source_preserves_anchor_count_witness :
  exists f',
    source_folder
      (folders (write_file "CMakeLists.txt" cmakelists_two_patched
                  (world_of cmakelists_two))) !! "CMakeLists.txt" = Some f' /\
    occurrences f' anchor = occurrences cmakelists_two anchor.
Proof.
  apply (source_preserves_anchor_count (world_of cmakelists_two)
           (write_file "CMakeLists.txt" cmakelists_two_patched
              (world_of cmakelists_two)) cmakelists_two);
    [reflexivity|].
  rewrite (source_eq _ cmakelists_two); reflexivity.
Defined.

(** Each successful [source()] makes the build description longer by the 70
    characters of the inserted lines, once per occurrence of the anchor. *)
Theorem source_grows_file (w w' : World) (f : str) :
  source_folder (folders w) !! "CMakeLists.txt" = Some f ->
  source w = (Ok tt, w') ->
  exists f',
    source_folder (folders w') !! "CMakeLists.txt" = Some f' /\
    length f' = length f + 70 * occurrences f anchor.
Proof.
  intros Hf Hrun. destruct (source_ok_inv w w' Hrun) as (g & Hg & _ & ->).
  assert (g = f) as -> by congruence.
  exists (replace f anchor replacement).
  split; [apply write_file_lookup|].
  rewrite replacement_eq, length_replace by reflexivity.
  change (length inserted) with 70. lia.
Qed.

Lemma source_grows_file_witness :
  exists f',
    source_folder
      (folders (write_file "CMakeLists.txt" cmakelists_two_patched
                  (world_of cmakelists_two))) !! "CMakeLists.txt" = Some f' /\
    length f' = length cmakelists_two + 70 * occurrences cmakelists_two anchor.
Proof.
  apply (source_grows_file (world_of cmakelists_two)
           (write_file "CMakeLists.txt" cmakelists_two_patched
              (world_of cmakelists_two)) cmakelists_two);
    [reflexivity|].
  rewrite (source_eq _ cmakelists_two); reflexivity.
Defined.

(** The patch loses nothing: after a successful [source()], the reverse
    call, [replace_in_file] with the replacement text as search text and the
    anchor as replacement, succeeds and restores the world as it was. *)
Theorem source_can_be_undone (w w' : World) :
  source w = (Ok tt, w') ->
  replace_in_file "CMakeLists.txt" replacement anchor true w' = (Ok tt, w).
Proof.
  intros Hrun. destruct (source_ok_inv w w' Hrun) as (f & Hf & H1 & ->).
  rewrite (replace_in_file_strict _ _ _ _ _ (write_file_lookup _ _)).
  assert (1 <= occurrences (replace f anchor replacement) replacement)
    as Hback.
  { destruct (replace_first f anchor anchor_not_nil H1)
      as (pre & post & -> & Hr).
    rewrite Hr. apply occurrences_contains.
    exists pre, (replace post anchor replacement). reflexivity. }
  destruct (occurrences (replace f anchor replacement) replacement);
    [lia|]. cbn [Nat.eqb].
  rewrite replacement_eq, replace_undo by reflexivity.
  rewrite write_file_twice, (write_file_same _ f w Hf). reflexivity.
Qed.

Lemma source_can_be_undone_witness :
  replace_in_file "CMakeLists.txt" replacement anchor true
    (write_file "CMakeLists.txt" cmakelists_patched (world_of cmakelists)) =
    (Ok tt, world_of cmakelists).
Proof.
  apply (source_can_be_undone (world_of cmakelists)).
  rewrite (source_eq _ cmakelists); reflexivity.
Defined.

(** *** What the export and the licence copy can and cannot bring *)

(** A pattern that ends in [*] after literal characters takes only names
    that begin, case aside, with those characters. *)
Lemma filter_match_prefix (pattern name : string) (p : str) :
  lower (lit pattern) = p ++ ["*"%char] ->
  forallb literal p = true ->
  filter_match true pattern name = true ->
  startswith (lower (lit name)) p = true.
Proof.
  unfold filter_match. intros -> Hp Hm.
  destruct (fnmatchcase_literal_prefix p _ _ Hp Hm) as (rest & -> & _).
  apply startswith_app.
Qed.

(** A pattern of literal characters takes only its own name, case aside. *)
Lemma filter_match_exact (pattern name : string) :
  forallb literal (lower (lit pattern)) = true ->
  filter_match true pattern name = true ->
  lower (lit name) = lower (lit pattern).
Proof.
  unfold filter_match. intros Hp Hm.
  exact (fnmatchcase_literal _ _ Hp Hm).
Qed.

(** The export brings nothing of its own and nothing outside the five
    entries: an exported file is a file of the recipe folder, with the same
    text, and its name is, case aside, [CMakeLists.txt] or begins with
    [src/], [include/], [cmake/] or [tools/]. *)
Theorem exported_only_listed (recipe_folder : Files) (name : string)
    (text : str) :
  exported recipe_folder !! name = Some text ->
  recipe_folder !! name = Some text /\
  (lower (lit name) = lit "cmakelists.txt" \/
   startswith (lower (lit name)) (lit "src/") = true \/
   startswith (lower (lit name)) (lit "include/") = true \/
   startswith (lower (lit name)) (lit "cmake/") = true \/
   startswith (lower (lit name)) (lit "tools/") = true).
Proof.
  rewrite exported_lookup.
  destruct (existsb _ exports_sources) eqn:Hany; [|discriminate].
  intros Hname. split; [exact Hname|].
  cbn [existsb exports_sources] in Hany.
  repeat (apply orb_true_iff in Hany as [Hany|Hany]); try discriminate.
  - left. apply (filter_match_exact "CMakeLists.txt" name); auto.
  - right; left.
    apply (filter_match_prefix "src/*" name (lit "src/")); auto.
  - right; right; left.
    apply (filter_match_prefix "include/*" name (lit "include/")); auto.
  - right; right; right; left.
    apply (filter_match_prefix "cmake/*" name (lit "cmake/")); auto.
  - right; right; right; right.
    apply (filter_match_prefix "tools/*" name (lit "tools/")); auto.
Qed.

Lemma exported_only_listed_witness :
  repository !! "src/UCBlock.cpp" = Some (lit "// UCBlock") /\
  (lower (lit "src/UCBlock.cpp") = lit "cmakelists.txt" \/
   startswith (lower (lit "src/UCBlock.cpp")) (lit "src/") = true \/
   startswith (lower (lit "src/UCBlock.cpp")) (lit "include/") = true \/
   startswith (lower (lit "src/UCBlock.cpp")) (lit "cmake/") = true \/
   startswith (lower (lit "src/UCBlock.cpp")) (lit "tools/") = true).
Proof.
  apply (exported_only_listed repository "src/UCBlock.cpp").
  vm_compute. reflexivity.
Defined.

Lemma lit_append (a b : string) : lit (a +:+ b) = lit a ++ lit b.
Proof.
  induction a as [|c a IH]; [reflexivity|].
  change (String c a +:+ b) with (String c (a +:+ b)).
  unfold lit in *. cbn [list_ascii_of_string]. rewrite IH. reflexivity.
Qed.

Lemma path_join_licenses (name : string) :
  startswith (lit (path_join "licenses" name)) (lit "licenses/") = true.
Proof.
  change (path_join "licenses" name) with ("licenses/" +:+ name).
  rewrite lit_append. apply startswith_app.
Qed.

(** The licence copy of [package()] writes below [licenses/] only: every
    other file of the package folder, and the source and build folders, are
    as before. *)
Theorem license_copy_stays_in_licenses (fs : Folders) (key : string) :
  startswith (lit key) (lit "licenses/") = false ->
  package_folder (copied "LICENSE" "licenses" fs) !! key =
    package_folder fs !! key /\
  source_folder (copied "LICENSE" "licenses" fs) = source_folder fs /\
  build_folder (copied "LICENSE" "licenses" fs) = build_folder fs.
Proof.
  intros Hkey. split; [|split; reflexivity].
  apply FileCopier_lookup_other. intros name ->.
  rewrite path_join_licenses in Hkey. discriminate.
Qed.

Lemma license_copy_stays_in_licenses_witness :
  let fs := mkFolders licensed_sources ∅ {[ "lib/libUCBlock.a" := lit "!" ]} in
  package_folder (copied "LICENSE" "licenses" fs) !! "lib/libUCBlock.a" =
    package_folder fs !! "lib/libUCBlock.a" /\
  source_folder (copied "LICENSE" "licenses" fs) = source_folder fs /\
  build_folder (copied "LICENSE" "licenses" fs) = build_folder fs.
Proof.
  intros fs. apply (license_copy_stays_in_licenses fs "lib/libUCBlock.a").
  reflexivity.
Defined.

(** What the licence copy of [package()] adds is a licence: a file found in
    the package folder after the copy was there before, or it is
    [licenses/<name>] for a top-level file [<name>] of the source or build
    folder, with the same text, whose name is [LICENSE] up to case. *)
Theorem license_copy_brings_only_licenses (fs : Folders) (key : string)
    (text : str) :
  package_folder (copied "LICENSE" "licenses" fs) !! key = Some text ->
  package_folder fs !! key = Some text \/
  exists name,
    key = "licenses/" +:+ name /\
    lower (lit name) = lit "license" /\
    (source_folder fs !! name = Some text \/
     build_folder fs !! name = Some text).
Proof.
  intros Hkey. apply FileCopier_lookup_Some in Hkey
    as [Hold|(src & name & Hin & -> & Hsrc & Hm)]; [left; exact Hold|].
  right. exists name. split; [reflexivity|].
  split; [apply (filter_match_exact "LICENSE" name); auto|].
  destruct Hin as [<-|[<-|[]]]; [left | right]; exact Hsrc.
Qed.

Lemma license_copy_brings_only_licenses_witness :
  let fs := mkFolders licensed_sources ∅ ∅ in
  package_folder fs !! "licenses/LICENSE" =
    Some (lit "GNU GENERAL PUBLIC LICENSE") \/
  exists name,
    "licenses/LICENSE" = "licenses/" +:+ name /\
    lower (lit name) = lit "license" /\
    (source_folder fs !! name = Some (lit "GNU GENERAL PUBLIC LICENSE") \/
     build_folder fs !! name = Some (lit "GNU GENERAL PUBLIC LICENSE")).
Proof.
  intros fs.
  apply (license_copy_brings_only_licenses fs "licenses/LICENSE").
  vm_compute. reflexivity.
Defined.

(** The licence copy of [package()] stages the [LICENSE] of the build
    folder, else that of the source folder, at [licenses/LICENSE]; with
    neither, what the package folder had there stays.  (Conan takes one file
    per lowered name, hence the condition that [LICENSE] is the only
    spelling of the name in the two folders.) *)
Theorem license_copy_stages_license (fs : Folders) :
  (forall name,
     lower (lit name) = lit "license" ->
     is_Some (source_folder fs !! name) \/ is_Some (build_folder fs !! name) ->
     name = "LICENSE") ->
  package_folder (copied "LICENSE" "licenses" fs) !! "licenses/LICENSE" =
  match build_folder fs !! "LICENSE" with
  | Some text => Some text
  | None =>
      match source_folder fs !! "LICENSE" with
      | Some text => Some text
      | None => package_folder fs !! "licenses/LICENSE"
      end
  end.
Proof.
  intros _.
  pose proof (FileCopier_lookup [source_folder fs; build_folder fs]
                (package_folder fs) "LICENSE" "licenses" "LICENSE" true)
    as Hcopy.
  change (path_join "licenses" "LICENSE") with "licenses/LICENSE" in Hcopy.
  change (filter_match true "LICENSE" "LICENSE") with true in Hcopy.
  cbn [foldl] in Hcopy. unfold copied. cbn [package_folder set_package_folder].
  rewrite Hcopy.
  destruct (build_folder fs !! "LICENSE"), (source_folder fs !! "LICENSE"),
    (package_folder fs !! "licenses/LICENSE"); reflexivity.
Qed.

Lemma license_copy_stages_license_witness :
  let fs := mkFolders licensed_sources ∅ ∅ in
  package_folder (copied "LICENSE" "licenses" fs) !! "licenses/LICENSE" =
  match build_folder fs !! "LICENSE" with
  | Some text => Some text
  | None =>
      match source_folder fs !! "LICENSE" with
      | Some text => Some text
      | None => package_folder fs !! "licenses/LICENSE"
      end
  end.
Proof.
  intros fs. apply (license_copy_stages_license fs).
  intros name Hname [Hsome|Hsome].
  - cbn [source_folder fs] in Hsome. unfold licensed_sources in Hsome.
    destruct (decide (name = "LICENSE")) as [|Hne]; [assumption|].
    destruct (decide (name = "CMakeLists.txt")) as [->|Hne'];
      [discriminate Hname|].
    rewrite lookup_insert_ne, lookup_singleton_ne in Hsome by congruence.
    destruct Hsome as [? [=]].
  - cbn [build_folder fs] in Hsome. rewrite lookup_empty in Hsome.
    destruct Hsome as [? [=]].
Defined.

End UcblockConanMore.
